(** * Bulgarian freelance taxes: the tax model and the chart series

    A shallow embedding of [bulgaria-freelance-taxes.py].  The script
    computes, for a range of monthly gross incomes, the share of the income
    that goes to taxes and fixed expenses when working through a company or
    as an individual, and plots both curves.

    Numbers.  The script computes with Python floats and takes its
    command-line amounts as Python ints.  The main definitions read a float
    as the exact rational it stands for ([Q], compared with [==]) and an int
    as [Z], converted with [inject_Z] where Python converts it implicitly:
    they give the formulas evaluated exactly.  Module [Binary64] transcribes
    the same functions onto binary64 floats, rounding after every operation
    as the script does; it is used where rounding makes the computation
    differ from the exact formulas. *)

From Stdlib Require Import Ascii String Bool ZArith QArith Qminmax Qround.
From Stdlib Require Import Lqa Lia.
From Stdlib Require Import PrimFloat SpecFloat FloatOps.
From Stdlib Require Import List.
Import ListNotations.

Local Open Scope Q_scope.

(* Decimal float literals stand for the nearest double, as in Python. *)
Set Warnings "-inexact-float".

(** ** Command-line arguments

    The namespace returned by [parser.parse_args()].  The script reads it as
    a global; the functions below take it as their first argument. *)

Record Args : Type := mkArgs {
  socsec_base_min : Z;      (* --socsec-base-min, type=int, required *)
  socsec_base_max : Z;      (* --socsec-base-max, type=int, required *)
  year            : string; (* --year, required *)
  citizen         : bool;   (* --citizen, store_true *)
  gross_min       : Z;      (* --gross-min, type=int, default 500 *)
  gross_max       : Z;      (* --gross-max, type=int, default 25000 *)
  output          : string  (* --output, default output.png *)
}.

(** ** Module constants *)

Definition SOCIAL_SECURITY_FACTOR_MAIN : Q := 0.148 + 0.05.
Definition SOCIAL_SECURITY_FACTOR_HEALTH : Q := 0.08.
Definition INCOME_TAX_FACTOR : Q := 0.10.
Definition DIVIDEND_TAX_FACTOR : Q := 0.05.
Definition RECOGNIZED_EXPENSES_INDIVIDUAL : Q := 0.25.
Definition FIXED_EXPENSES_INDIVIDUAL : Z := 150 + 5.
Definition FIXED_EXPENSES_COMPANY : Z := 150 + 15.

(** ** Comparison and division as the script uses them *)

(** [x > y] on numbers. *)
Definition Qgtb (x y : Q) : bool :=
  match x ?= y with
  | Gt => true
  | _ => false
  end.

(** [x / y] on numpy floats.  A zero divisor does not raise: numpy warns and
    stores an infinity or a NaN.  [None] stands for such a non-finite
    value. *)
Definition np_div (x y : Q) : option Q :=
  if Qeq_bool y 0 then None else Some (x / y).

(** [c - v] where [v] may be non-finite: a non-finite operand gives a
    non-finite result. *)
Definition np_rsub (c : Q) (v : option Q) : option Q :=
  match v with
  | Some q => Some (c - q)
  | None => None
  end.

(** ** Tax model *)

(** Total social security factor, which depends on the [--citizen] flag. *)
Definition soc_sec_factor (args : Args) : Q :=
  if citizen args
  then SOCIAL_SECURITY_FACTOR_MAIN + SOCIAL_SECURITY_FACTOR_HEALTH
  else SOCIAL_SECURITY_FACTOR_MAIN.

(** The local variables of [get_net_company], in the order the function
    assigns them, and the value it returns. *)
Record CompanyLocals : Type := mkCompanyLocals {
  c_soc_sec         : Q;
  c_income_tax_base : Q;
  c_income_tax      : Q;
  c_net_company     : Q;
  c_return          : Q
}.

Definition get_net_company_locals (args : Args) (gross : Q) : CompanyLocals :=
  let soc_sec := inject_Z (socsec_base_min args) * soc_sec_factor args in
  let income_tax_base := gross - inject_Z FIXED_EXPENSES_COMPANY - soc_sec in
  let income_tax := income_tax_base * INCOME_TAX_FACTOR in
  let net_company :=
    gross - soc_sec - income_tax - inject_Z FIXED_EXPENSES_COMPANY in
  mkCompanyLocals soc_sec income_tax_base income_tax net_company
    (net_company * (1.0 - DIVIDEND_TAX_FACTOR)).

(** Net income for a company. *)
Definition get_net_company (args : Args) (gross : Q) : Q :=
  c_return (get_net_company_locals args gross).

(** The local variables of [get_net_individual] and the value it returns. *)
Record IndividualLocals : Type := mkIndividualLocals {
  i_soc_sec_base    : Q;
  i_soc_sec         : Q;
  i_income_tax_base : Q;
  i_income_tax      : Q;
  i_return          : Q
}.

Definition get_net_individual_locals (args : Args) (gross : Q)
  : IndividualLocals :=
  let soc_sec_base :=
    if Qgtb gross (inject_Z (socsec_base_max args))
    then inject_Z (socsec_base_max args)
    else gross in
  let soc_sec := soc_sec_base * soc_sec_factor args in
  let income_tax_base :=
    gross * (1.0 - RECOGNIZED_EXPENSES_INDIVIDUAL) - soc_sec in
  let income_tax := income_tax_base * INCOME_TAX_FACTOR in
  mkIndividualLocals soc_sec_base soc_sec income_tax_base income_tax
    (gross - soc_sec - income_tax - inject_Z FIXED_EXPENSES_INDIVIDUAL).

(** Net income for an individual. *)
Definition get_net_individual (args : Args) (gross : Q) : Q :=
  i_return (get_net_individual_locals args gross).

(** ** Series generation *)

(** Replace the last element of a list ([y[-1] = v]). *)
Definition set_last (l : list Q) (v : Q) : list Q :=
  match l with
  | [] => []
  | _ => removelast l ++ [v]
  end.

(** [numpy.linspace(start, stop, num)] with the default [endpoint=True]:
    [num] samples [i * step + start] for [i = 0 .. num-1], where
    [step = (stop - start) / (num - 1)], the last one then overwritten with
    [stop]. *)
Definition linspace (start stop : Q) (num : nat) : list Q :=
  let div := inject_Z (Z.of_nat (num - 1)) in
  let delta := stop - start in
  let step := delta / div in
  let y := map (fun i => inject_Z (Z.of_nat i) * step + start) (seq 0 num) in
  if (1 <? num)%nat then set_last y stop else y.

(** The spacing of the samples of [linspace start stop num]: the value of
    its local [step]. *)
Definition linspace_step (start stop : Q) (num : nat) : Q :=
  (stop - start) / inject_Z (Z.of_nat (num - 1)).

(** What [plot_func] hands to [plt.plot]: the sampled gross incomes and the
    two lists of ordinates. *)
Record Plot : Type := mkPlot {
  plot_x       : list Q;
  y_company    : list (option Q);
  y_individual : list (option Q)
}.

Definition plot_func (args : Args) (x : Z * Z) : Plot :=
  let x := linspace (inject_Z (fst x)) (inject_Z (snd x)) 200 in
  let y_company :=
    map (fun gross => np_rsub 1 (np_div (get_net_company args gross) gross))
        x in
  let y_individual :=
    map (fun gross =>
           np_rsub 1 (np_div (get_net_individual args gross) gross))
        x in
  mkPlot x y_company y_individual.

(** The call at the bottom of the script. *)
Definition main_plot (args : Args) : Plot :=
  plot_func args (gross_min args, gross_max args).



(** ** The formulas as the specification words them *)

(** [netCompanyIncome(gross, params)]. *)
Definition netCompanyIncome_spec (params : Args) (gross : Q) : Q :=
  let fixedExpensesCompany := 165 in
  let socSec := inject_Z (socsec_base_min params) * soc_sec_factor params in
  let incomeTax := 0.10 * (gross - fixedExpensesCompany - socSec) in
  (gross - socSec - incomeTax - fixedExpensesCompany) * (1 - 0.05).

(** [netIndividualIncome(gross, params)]. *)
Definition netIndividualIncome_spec (params : Args) (gross : Q) : Q :=
  let fixedExpensesIndividual := 155 in
  let socSec :=
    Qmin gross (inject_Z (socsec_base_max params)) * soc_sec_factor params in
  let incomeTax := 0.10 * (gross * (1 - 0.25) - socSec) in
  gross - socSec - incomeTax - fixedExpensesIndividual.

(** Rounding to the nearest integer, ties to the even one, and rounding to
    [n] decimals with it, as Python's [round(x, n)] does. *)
Definition round_half_even (q : Q) : Z :=
  let f := Qfloor q in
  match (q - inject_Z f ?= 1 # 2)%Q with
  | Lt => f
  | Gt => (f + 1)%Z
  | Eq => if Z.even f then f else (f + 1)%Z
  end.

Definition round_decimals (q : Q) (n : nat) : Q :=
  let scale := inject_Z (10 ^ Z.of_nat n) in
  inject_Z (round_half_even (q * scale)) / scale.

(** Two argument sets that agree on everything but [socsec_base_max]. *)
Definition differ_only_in_base_max (a b : Args) : Prop :=
  socsec_base_min a = socsec_base_min b /\ year a = year b /\
  citizen a = citizen b /\ gross_min a = gross_min b /\
  gross_max a = gross_max b /\ output a = output b.

(** Two argument sets that agree on everything but [socsec_base_min]. *)
Definition differ_only_in_base_min (a b : Args) : Prop :=
  socsec_base_max a = socsec_base_max b /\ year a = year b /\
  citizen a = citizen b /\ gross_min a = gross_min b /\
  gross_max a = gross_max b /\ output a = output b.

(** Functional update of the [--citizen] flag. *)
Definition with_citizen (a : Args) (c : bool) : Args :=
  mkArgs (socsec_base_min a) (socsec_base_max a) (year a) c
         (gross_min a) (gross_max a) (output a).

(** The 2021 figures quoted in the argument help and in the specification's
    worked example. *)
Definition args_2021 : Args :=
  mkArgs 650 3000 "2021" false 500 25000 "output.png".

(** ** The rest of the chart *)

(** The line feed written [\n] in the title. *)
Definition newline : string := String "010"%char EmptyString.

(** The argument of [plt.title] in [plot_func]: three adjacent string
    literals, the first two of them f-strings. *)
Definition plot_title (args : Args) : string :=
  ("Percentage of income to be paid in taxes and other expenses in "
   ++ year args ++ "," ++ newline
   ++ "if you " ++ (if citizen args then "HAVE" else "DO NOT HAVE")
   ++ " EU citizenship "
   ++ "or permanent residence permit")%string.

(** [plt.axis([0, args.gross_max, 0, 0.5])]: the limits of the two axes. *)
Record AxisLimits : Type := mkAxisLimits {
  xmin : Q;
  xmax : Q;
  ymin : Q;
  ymax : Q
}.

Definition axis_limits (args : Args) : AxisLimits :=
  mkAxisLimits 0 (inject_Z (gross_max args)) 0 0.5.

(** ** The computation on binary64

    IEEE 754 binary64 with rounding to nearest, ties to even, is the
    arithmetic of Python's [float] and of numpy's [float64].  The functions
    of the script are transcribed once more, operation by operation, onto
    the primitive floats, which are this arithmetic.  An int meets a float
    as the nearest double; the conversion is meant for the ints of the
    64-bit range, which numpy reads as [int64]. *)

Module Binary64.

(** A Python int as a double. *)
Definition of_int (z : Z) : float :=
  SF2Prim (binary_normalize prec emax z 0 false).


(** The rational a finite double stands for. *)
Definition to_Q (f : float) : option Q :=
  match Prim2SF f with
  | S754_zero _ => Some 0
  | S754_finite s m e =>
      Some ((if s then - inject_Z (Z.pos m) else inject_Z (Z.pos m)) * 2 ^ e)
  | S754_infinity _ => None
  | S754_nan => None
  end.

(** The double [f] is exactly the integer [z]. *)
Definition represents (f : float) (z : Z) : Prop :=
  match to_Q f with
  | Some q => q == inject_Z z
  | None => False
  end.

Definition SOCIAL_SECURITY_FACTOR_MAIN : float := (0.148 + 0.05)%float.
Definition SOCIAL_SECURITY_FACTOR_HEALTH : float := 0.08%float.
Definition INCOME_TAX_FACTOR : float := 0.10%float.
Definition DIVIDEND_TAX_FACTOR : float := 0.05%float.
Definition RECOGNIZED_EXPENSES_INDIVIDUAL : float := 0.25%float.

Definition soc_sec_factor (args : Args) : float :=
  if citizen args
  then (SOCIAL_SECURITY_FACTOR_MAIN + SOCIAL_SECURITY_FACTOR_HEALTH)%float
  else SOCIAL_SECURITY_FACTOR_MAIN.

Definition get_net_company (args : Args) (gross : float) : float :=
  let soc_sec := (of_int (socsec_base_min args) * soc_sec_factor args)%float in
  let income_tax_base :=
    (gross - of_int FIXED_EXPENSES_COMPANY - soc_sec)%float in
  let income_tax := (income_tax_base * INCOME_TAX_FACTOR)%float in
  let net_company :=
    (gross - soc_sec - income_tax - of_int FIXED_EXPENSES_COMPANY)%float in
  (net_company * (1.0 - DIVIDEND_TAX_FACTOR))%float.

Definition get_net_individual (args : Args) (gross : float) : float :=
  let soc_sec_base :=
    if ltb (of_int (socsec_base_max args)) gross
    then of_int (socsec_base_max args)
    else gross in
  let soc_sec := (soc_sec_base * soc_sec_factor args)%float in
  let income_tax_base :=
    (gross * (1.0 - RECOGNIZED_EXPENSES_INDIVIDUAL) - soc_sec)%float in
  let income_tax := (income_tax_base * INCOME_TAX_FACTOR)%float in
  (gross - soc_sec - income_tax - of_int FIXED_EXPENSES_INDIVIDUAL)%float.

(** Replace the last element of a list ([y[-1] = v]). *)
Definition set_last (l : list float) (v : float) : list float :=
  match l with
  | [] => []
  | _ => removelast l ++ [v]
  end.

(** [numpy.linspace(start, stop, num)] with the default [endpoint=True], as
    numpy computes it: [delta = stop - start], [y = arange(0, num)],
    [step = delta / div] with [div = num - 1]; [y = y * step], or
    [y = (y / div) * delta] when the step is zero, or [y = y * delta] when
    [div] is zero; then [y += start] and [y[-1] = stop]. *)
Definition linspace (start stop : float) (num : nat) : list float :=
  let div := of_int (Z.of_nat (num - 1)) in
  let delta := (stop - start)%float in
  let y := map (fun i => of_int (Z.of_nat i)) (seq 0 num) in
  let y :=
    if (0 <? num - 1)%nat
    then
      let step := (delta / div)%float in
      if eqb step 0%float
      then map (fun v => (v / div * delta)%float) y
      else map (fun v => (v * step)%float) y
    else map (fun v => (v * delta)%float) y in
  let y := map (fun v => (v + start)%float) y in
  if (1 <? num)%nat then set_last y stop else y.

Record Plot : Type := mkPlot {
  plot_x       : list float;
  y_company    : list float;
  y_individual : list float
}.

Definition plot_func (args : Args) (x : Z * Z) : Plot :=
  let x := linspace (of_int (fst x)) (of_int (snd x)) 200 in
  let y_company :=
    map (fun gross => (1 - get_net_company args gross / gross)%float) x in
  let y_individual :=
    map (fun gross => (1 - get_net_individual args gross / gross)%float) x in
  mkPlot x y_company y_individual.




End Binary64.

(** * Properties *)

(** ** Comparison *)

Lemma Qgtb_true (x y : Q) : Qgtb x y = true <-> y < x.
Proof.
  unfold Qgtb. rewrite (Qgt_alt x y).
  destruct (x ?= y); split; intro H; congruence.
Qed.

Lemma Qgtb_false (x y : Q) : Qgtb x y = false <-> x <= y.
Proof.
  unfold Qgtb. rewrite (Qle_alt x y).
  destruct (x ?= y); split; intro H; congruence.
Qed.

(** ** The social security factor *)

Lemma soc_sec_factor_values (args : Args) :
  soc_sec_factor args == if citizen args then 0.278 else 0.198.
Proof. unfold soc_sec_factor. destruct (citizen args); reflexivity. Qed.

Lemma soc_sec_factor_pos (args : Args) : 0 < soc_sec_factor args.
Proof. rewrite soc_sec_factor_values. destruct (citizen args); reflexivity. Qed.

Ltac unfold_model :=
  unfold get_net_company, get_net_company_locals,
         get_net_individual, get_net_individual_locals,
         netCompanyIncome_spec, netIndividualIncome_spec,
         SOCIAL_SECURITY_FACTOR_MAIN, SOCIAL_SECURITY_FACTOR_HEALTH,
         INCOME_TAX_FACTOR, DIVIDEND_TAX_FACTOR,
         RECOGNIZED_EXPENSES_INDIVIDUAL,
         FIXED_EXPENSES_INDIVIDUAL, FIXED_EXPENSES_COMPANY in *;
  cbn [c_return c_soc_sec c_income_tax_base c_income_tax c_net_company
       i_return i_soc_sec_base i_soc_sec i_income_tax_base i_income_tax] in *.

(** C7.  With the citizen flag set the factor is the factor without it plus
    0.08, and without the flag it is 0.148 + 0.05. *)
Theorem soc_sec_factor_citizen (args : Args) :
  soc_sec_factor (with_citizen args true)
    == soc_sec_factor (with_citizen args false) + 0.08 /\
  soc_sec_factor (with_citizen args false) == 0.148 + 0.05 /\
  SOCIAL_SECURITY_FACTOR_HEALTH == 0.08.
Proof. repeat split; reflexivity. Qed.

(** ** The two net-income formulas *)

(** C1.  [get_net_company] computes the specification's company formula for
    every gross income and every argument set; its social security is
    [socsec_base_min * soc_sec_factor()] whatever the gross income; and
    nothing is clamped: with the 2021 figures a gross income of 100 gives a
    negative tax base, a negative tax, a negative company net and a negative
    result. *)
Theorem get_net_company_formula (args : Args) (gross : Q) :
  get_net_company args gross == netCompanyIncome_spec args gross /\
  c_soc_sec (get_net_company_locals args gross)
    == inject_Z (socsec_base_min args) * soc_sec_factor args /\
  (let l := get_net_company_locals args_2021 100 in
   c_income_tax_base l < 0 /\ c_income_tax l < 0 /\ c_net_company l < 0 /\
   get_net_company args_2021 100 < 0).
Proof.
  split; [| split; [reflexivity | repeat split]].
  unfold_model. change (inject_Z (150 + 15)) with 165. ring.
Qed.

(** The capped base of the individual path is a minimum, and the function's
    result is determined by its social security. *)

Lemma inject_Z_nonneg (z : Z) : (0 <= z)%Z -> 0 <= inject_Z z.
Proof. intro H. change 0 with (inject_Z 0). rewrite <- Zle_Qle. exact H. Qed.

Lemma individual_soc_sec_base_min (args : Args) (gross : Q) :
  i_soc_sec_base (get_net_individual_locals args gross)
    == Qmin gross (inject_Z (socsec_base_max args)).
Proof.
  unfold get_net_individual_locals; cbn [i_soc_sec_base].
  set (m := inject_Z (socsec_base_max args)).
  destruct (Qgtb gross m) eqn:E.
  - apply Qgtb_true in E. rewrite (Q.min_r gross m) by (apply Qlt_le_weak, E).
    reflexivity.
  - apply Qgtb_false in E. rewrite (Q.min_l gross m) by exact E. reflexivity.
Qed.

Lemma individual_soc_sec_eq (args : Args) (gross : Q) :
  i_soc_sec (get_net_individual_locals args gross)
    == Qmin gross (inject_Z (socsec_base_max args)) * soc_sec_factor args.
Proof.
  rewrite <- individual_soc_sec_base_min. reflexivity.
Qed.

Lemma get_net_individual_from_soc_sec (args : Args) (gross : Q) :
  let soc_sec := i_soc_sec (get_net_individual_locals args gross) in
  get_net_individual args gross
    == gross - soc_sec - (gross * (1 - 0.25) - soc_sec) * 0.10 - 155.
Proof.
  cbv zeta. unfold_model. change (inject_Z (150 + 5)) with 155. ring.
Qed.

(** C2.  [get_net_individual] computes the specification's individual
    formula for every gross income and every argument set. *)
Theorem get_net_individual_formula (args : Args) (gross : Q) :
  get_net_individual args gross == netIndividualIncome_spec args gross.
Proof.
  rewrite get_net_individual_from_soc_sec. cbv zeta.
  rewrite individual_soc_sec_eq.
  unfold netIndividualIncome_spec. ring.
Qed.

(** ** The worked example: 2021 figures, gross income 1000 *)

(** C3, as the specification states it, fails: the company path at gross
    income 1000 does give 128.7, 706.3, 70.63 and 635.67, but the final
    figure does not round to 603.99. *)
Lemma company_example_not_603_99 :
  ~ (let l := get_net_company_locals args_2021 1000 in
     c_soc_sec l == 128.7 /\
     c_income_tax_base l == 706.3 /\
     c_income_tax l == 70.63 /\
     c_net_company l == 635.67 /\
     round_decimals (get_net_company args_2021 1000) 2 == 603.99).
Proof.
  intros (_ & _ & _ & _ & H). vm_compute in H. discriminate H.
Qed.

(** C3, amended.  With base minimum 650, base maximum 3000 and no citizen
    flag, the company path at gross income 1000 gives social security
    128.7, income-tax base 706.3, income tax 70.63, company net 635.67 and
    returns 603.8865, which is 603.89 when rounded to 2 decimals. *)
Theorem company_example_2021 (args : Args) :
  socsec_base_min args = 650%Z ->
  socsec_base_max args = 3000%Z ->
  citizen args = false ->
  let l := get_net_company_locals args 1000 in
  c_soc_sec l == 128.7 /\
  c_income_tax_base l == 706.3 /\
  c_income_tax l == 70.63 /\
  c_net_company l == 635.67 /\
  get_net_company args 1000 == 603.8865 /\
  round_decimals (get_net_company args 1000) 2 == 603.89.
Proof.
  intros Hmin _ Hcit.
  unfold get_net_company, get_net_company_locals, soc_sec_factor.
  rewrite Hmin, Hcit. cbv zeta.
  cbn [c_return c_soc_sec c_income_tax_base c_income_tax c_net_company].
  repeat split; vm_compute; reflexivity.
Qed.

Lemma company_example_2021_witness :
  let l := get_net_company_locals args_2021 1000 in
  c_soc_sec l == 128.7 /\
  c_income_tax_base l == 706.3 /\
  c_income_tax l == 70.63 /\
  c_net_company l == 635.67 /\
  get_net_company args_2021 1000 == 603.8865 /\
  round_decimals (get_net_company args_2021 1000) 2 == 603.89.
Proof.
  apply (company_example_2021 args_2021); reflexivity.
Defined.

(** The individual path of the same example: base 1000, social security
    198, income-tax base 552, income tax 55.2, net 591.8. *)
Lemma individual_example_2021 :
  let l := get_net_individual_locals args_2021 1000 in
  i_soc_sec_base l == 1000 /\
  i_soc_sec l == 198 /\
  i_income_tax_base l == 552 /\
  i_income_tax l == 55.2 /\
  get_net_individual args_2021 1000 == 591.8.
Proof. repeat split; vm_compute; reflexivity. Qed.

(** ** Each structure ignores the other structure's base *)

(** C9.  [get_net_company] does not depend on [socsec_base_max], and
    [get_net_individual] does not depend on [socsec_base_min]. *)
Theorem base_noninterference (a b : Args) (gross : Q) :
  (differ_only_in_base_max a b ->
   get_net_company a gross = get_net_company b gross) /\
  (differ_only_in_base_min a b ->
   get_net_individual a gross = get_net_individual b gross).
Proof.
  split.
  - intros (Hmin & _ & Hcit & _).
    unfold get_net_company, get_net_company_locals, soc_sec_factor.
    rewrite Hmin, Hcit. reflexivity.
  - intros (Hmax & _ & Hcit & _).
    unfold get_net_individual, get_net_individual_locals, soc_sec_factor.
    rewrite Hmax, Hcit. reflexivity.
Qed.

Lemma base_noninterference_witness :
  let b := mkArgs 650 9999 "2021" false 500 25000 "output.png" in
  let c := mkArgs 0 3000 "2021" false 500 25000 "output.png" in
  (differ_only_in_base_max args_2021 b /\
   get_net_company args_2021 1000 = get_net_company b 1000) /\
  (differ_only_in_base_min args_2021 c /\
   get_net_individual args_2021 1000 = get_net_individual c 1000).
Proof.
  cbv zeta.
  split; (split; [repeat split |]).
  - apply (base_noninterference args_2021
             (mkArgs 650 9999 "2021" false 500 25000 "output.png") 1000).
    repeat split.
  - apply (base_noninterference args_2021
             (mkArgs 0 3000 "2021" false 500 25000 "output.png") 1000).
    repeat split.
Defined.

(** ** The individual's social security contribution *)

(** C6.  The social security contribution of the individual path is
    [min(gross, socsec_base_max) * soc_sec_factor()]; it is non-decreasing
    in the gross income up to [socsec_base_max] and constant, at
    [socsec_base_max * soc_sec_factor()], from there on. *)
Theorem individual_soc_sec_capped (args : Args) :
  (0 <= socsec_base_max args)%Z ->
  let soc_sec g := i_soc_sec (get_net_individual_locals args g) in
  let base_max := inject_Z (socsec_base_max args) in
  (forall g, soc_sec g == Qmin g base_max * soc_sec_factor args) /\
  (forall g1 g2, g1 <= g2 -> g2 <= base_max -> soc_sec g1 <= soc_sec g2) /\
  (forall g, base_max <= g -> soc_sec g == base_max * soc_sec_factor args).
Proof.
  intros _ soc_sec base_max. subst soc_sec base_max.
  pose proof (soc_sec_factor_pos args) as Hf.
  split; [| split].
  - intro g. apply individual_soc_sec_eq.
  - intros g1 g2 H12 H2.
    rewrite !individual_soc_sec_eq.
    rewrite (Q.min_l g1) by (apply Qle_trans with g2; assumption).
    rewrite (Q.min_l g2) by assumption.
    apply Qmult_le_compat_r; [exact H12 | apply Qlt_le_weak, Hf].
  - intros g Hg.
    rewrite individual_soc_sec_eq.
    rewrite (Q.min_r g) by assumption. reflexivity.
Qed.

Lemma individual_soc_sec_capped_witness :
  (0 <= socsec_base_max args_2021)%Z /\
  i_soc_sec (get_net_individual_locals args_2021 1000)
    <= i_soc_sec (get_net_individual_locals args_2021 2000) /\
  i_soc_sec (get_net_individual_locals args_2021 5000)
    == 3000 * soc_sec_factor args_2021.
Proof.
  assert (H : (0 <= socsec_base_max args_2021)%Z) by (vm_compute; discriminate).
  destruct (individual_soc_sec_capped args_2021 H) as (_ & Hmono & Hconst).
  split; [exact H | split].
  - apply Hmono; vm_compute; discriminate.
  - apply Hconst; vm_compute; discriminate.
Defined.

(** ** Bounds and monotonicity of the net incomes *)

(** The company formula in closed form. *)
Lemma get_net_company_closed (args : Args) (gross : Q) :
  get_net_company args gross
    == 0.855 * (gross - 165
                - inject_Z (socsec_base_min args) * soc_sec_factor args).
Proof. unfold_model. change (inject_Z (150 + 15)) with 165. ring. Qed.


Lemma np_burden_some (net gross : Q) :
  ~ gross == 0 -> np_rsub 1 (np_div net gross) = Some (1 - net / gross).
Proof.
  intro H. unfold np_div.
  destruct (Qeq_bool gross 0) eqn:E; [| reflexivity].
  apply Qeq_bool_eq in E. contradiction.
Qed.

(** C8.  For a positive gross income and a non-negative base minimum the
    company net income does not exceed the gross income, and the company
    ordinate [1 - get_net_company(gross) / gross] is non-negative. *)
Theorem company_net_le_gross (args : Args) (gross : Q) :
  0 < gross ->
  (0 <= socsec_base_min args)%Z ->
  get_net_company args gross <= gross /\
  exists burden,
    np_rsub 1 (np_div (get_net_company args gross) gross) = Some burden /\
    burden == 1 - get_net_company args gross / gross /\
    0 <= burden.
Proof.
  intros Hg Hmin.
  assert (Hle : get_net_company args gross <= gross).
  { rewrite get_net_company_closed.
    pose proof (inject_Z_nonneg _ Hmin) as Hm.
    pose proof (soc_sec_factor_pos args) as Hf.
    assert (Hs : 0 <= inject_Z (socsec_base_min args) * soc_sec_factor args)
      by (apply Qmult_le_0_compat; [exact Hm | apply Qlt_le_weak, Hf]).
    lra. }
  split; [exact Hle |].
  exists (1 - get_net_company args gross / gross).
  split; [| split].
  - apply np_burden_some. intro E. rewrite E in Hg. discriminate Hg.
  - reflexivity.
  - assert (Hq : get_net_company args gross / gross <= 1).
    { apply Qle_shift_div_r; [exact Hg | lra]. }
    lra.
Qed.

Lemma company_net_le_gross_witness :
  0 < 1000 /\ (0 <= socsec_base_min args_2021)%Z /\
  get_net_company args_2021 1000 <= 1000 /\
  exists burden,
    np_rsub 1 (np_div (get_net_company args_2021 1000) 1000) = Some burden /\
    burden == 1 - get_net_company args_2021 1000 / 1000 /\
    0 <= burden.
Proof.
  assert (Hg : 0 < 1000) by reflexivity.
  assert (Hm : (0 <= socsec_base_min args_2021)%Z)
    by (vm_compute; discriminate).
  split; [exact Hg | split; [exact Hm |]].
  exact (company_net_le_gross args_2021 1000 Hg Hm).
Defined.





(** Where the doubles of that counterexample come from, and how far the
    rounding goes: 10^16 and 10^16 + 2 are the first two gross incomes that
    [plot_func] samples on the range from 10^16 to 10^16 + 398; the net
    income computed for both is the double 9249999999999312; and between
    the double 1345.8828387078688 and the next one the computed net income
    falls. *)
Lemma get_net_individual_binary64_rounding :
  let xs := Binary64.plot_x
              (Binary64.plot_func args_2021 (10 ^ 16, 10 ^ 16 + 398)%Z) in
  nth 0 xs 0%float = Binary64.of_int (10 ^ 16) /\
  nth 1 xs 0%float = Binary64.of_int (10 ^ 16 + 2) /\
  Binary64.get_net_individual args_2021 (nth 0 xs 0%float)
    = 9249999999999312%float /\
  Binary64.get_net_individual args_2021 (nth 1 xs 0%float)
    = 9249999999999312%float /\
  ltb (Binary64.get_net_individual args_2021
         (next_up 1345.8828387078688%float))
      (Binary64.get_net_individual args_2021 1345.8828387078688%float)
    = true.
Proof. vm_compute. repeat split. Qed.



(** ** Sampling *)

Section SetLast.

Variables (l : list Q) (v : Q).

Lemma length_set_last : length (set_last l v) = length l.
Proof.
  destruct l as [| a t]; [reflexivity |].
  unfold set_last.
  rewrite length_app, removelast_firstn_len, length_firstn.
  cbn [length]. lia.
Qed.

Lemma nth_set_last_inner (i : nat) (d : Q) :
  (S i < length l)%nat -> nth i (set_last l v) d = nth i l d.
Proof.
  intro Hi. destruct l as [| a t]; [reflexivity |].
  unfold set_last.
  rewrite removelast_firstn_len.
  rewrite app_nth1 by (rewrite length_firstn; cbn [length] in *; lia).
  rewrite nth_firstn.
  destruct (Nat.ltb_spec i (Nat.pred (length (a :: t)))) as [_ | Hge];
    [reflexivity | cbn [length] in *; lia].
Qed.

Lemma nth_set_last_last (d : Q) :
  l <> [] -> nth (length l - 1) (set_last l v) d = v.
Proof.
  intro Hne. destruct l as [| a t]; [contradiction |].
  unfold set_last.
  rewrite removelast_firstn_len.
  rewrite app_nth2 by (rewrite length_firstn; cbn [length]; lia).
  rewrite length_firstn.
  replace (length (a :: t) - 1
           - Nat.min (Nat.pred (length (a :: t))) (length (a :: t)))%nat
    with 0%nat by (cbn [length]; lia).
  reflexivity.
Qed.

End SetLast.

Section Linspace.

Variables (start stop : Q) (num : nat).
Hypothesis two_samples : (2 <= num)%nat.

Lemma linspace_unfold :
  linspace start stop num
  = set_last
      (map (fun i => inject_Z (Z.of_nat i) * linspace_step start stop num
                     + start)
           (seq 0 num))
      stop.
Proof.
  unfold linspace.
  destruct (Nat.ltb_spec 1 num) as [_ | H]; [reflexivity | lia].
Qed.

Lemma length_linspace : length (linspace start stop num) = num.
Proof.
  rewrite linspace_unfold, length_set_last, length_map, length_seq.
  reflexivity.
Qed.

Lemma linspace_nth_inner (i : nat) :
  (S i < num)%nat ->
  nth i (linspace start stop num) 0
  = inject_Z (Z.of_nat i) * linspace_step start stop num + start.
Proof.
  intro Hi.
  rewrite linspace_unfold.
  rewrite nth_set_last_inner by (rewrite length_map, length_seq; exact Hi).
  set (f := fun i => inject_Z (Z.of_nat i) * _ + start).
  rewrite (nth_indep _ 0 (f 0%nat)) by (rewrite length_map, length_seq; lia).
  rewrite map_nth, seq_nth by lia.
  reflexivity.
Qed.

Lemma linspace_nth_last :
  nth (num - 1) (linspace start stop num) 0 = stop.
Proof.
  rewrite linspace_unfold.
  set (y := map _ (seq 0 num)).
  assert (Hlen : length y = num)
    by (unfold y; rewrite length_map, length_seq; reflexivity).
  rewrite <- Hlen at 1.
  apply nth_set_last_last.
  intro E. rewrite E in Hlen. cbn in Hlen. lia.
Qed.

Lemma linspace_step_times_div :
  inject_Z (Z.of_nat (num - 1)) * linspace_step start stop num
  == stop - start.
Proof.
  unfold linspace_step. apply Qmult_div_r.
  change 0 with (inject_Z 0). rewrite inject_Z_injective. lia.
Qed.

Lemma linspace_nth_first : nth 0 (linspace start stop num) 0 == start.
Proof.
  rewrite linspace_nth_inner by lia. cbn [Z.of_nat]. ring.
Qed.



End Linspace.

(** ** The plotted series *)


Lemma plot_func_x (args : Args) (x : Z * Z) :
  plot_x (plot_func args x)
  = linspace (inject_Z (fst x)) (inject_Z (snd x)) 200.
Proof. reflexivity. Qed.

Lemma plot_func_lengths (args : Args) (x : Z * Z) :
  let p := plot_func args x in
  length (plot_x p) = 200%nat /\
  length (y_company p) = 200%nat /\
  length (y_individual p) = 200%nat.
Proof.
  assert (H : length (linspace (inject_Z (fst x)) (inject_Z (snd x)) 200)
              = 200%nat) by (apply length_linspace; lia).
  cbv zeta. unfold plot_func; cbn [plot_x y_company y_individual].
  rewrite !length_map. auto.
Qed.


(** *** The samples on binary64 *)







(** What the script samples on that range: 2^53, then 2^53 + 2 twice, and
    at the end 2^53 + 200, which is not [gross_max]. *)
Lemma plot_func_binary64_rounded_samples :
  let xs := Binary64.plot_x
              (Binary64.plot_func args_2021 (2 ^ 53, 2 ^ 53 + 199)%Z) in
  Binary64.represents (nth 0 xs 0%float) (2 ^ 53) /\
  Binary64.represents (nth 1 xs 0%float) (2 ^ 53 + 2) /\
  Binary64.represents (nth 2 xs 0%float) (2 ^ 53 + 2) /\
  Binary64.represents (nth 199 xs 0%float) (2 ^ 53 + 200).
Proof. vm_compute. repeat split. Qed.



(** C5.  The ordinate stored for a sampled gross income is
    [1 - get_net_company(gross) / gross] in the company series and
    [1 - get_net_individual(gross) / gross] in the individual series. *)
Theorem plot_func_ordinates (args : Args) (x : Z * Z) (i : nat) (gross : Q) :
  let p := plot_func args x in
  nth_error (plot_x p) i = Some gross ->
  (nth_error (y_company p) i
     = Some (np_rsub 1 (np_div (get_net_company args gross) gross)) /\
   nth_error (y_individual p) i
     = Some (np_rsub 1 (np_div (get_net_individual args gross) gross))) /\
  (~ gross == 0 ->
   nth_error (y_company p) i
     = Some (Some (1 - get_net_company args gross / gross)) /\
   nth_error (y_individual p) i
     = Some (Some (1 - get_net_individual args gross / gross))).
Proof.
  intros p Hx.
  assert (Hc : nth_error (y_company p) i
               = Some (np_rsub 1 (np_div (get_net_company args gross) gross)))
    by (exact (map_nth_error _ i _ Hx)).
  assert (Hi : nth_error (y_individual p) i
               = Some (np_rsub 1
                         (np_div (get_net_individual args gross) gross)))
    by (exact (map_nth_error _ i _ Hx)).
  split; [split; assumption |].
  intro Hnz. rewrite Hc, Hi, !np_burden_some by exact Hnz.
  split; reflexivity.
Qed.

Lemma plot_func_ordinates_witness :
  let p := main_plot args_2021 in
  nth_error (plot_x p) 199 = Some 25000 /\
  nth_error (y_company p) 199
    = Some (Some (1 - get_net_company args_2021 25000 / 25000)) /\
  nth_error (y_individual p) 199
    = Some (Some (1 - get_net_individual args_2021 25000 / 25000)).
Proof.
  assert (Hx : nth_error (plot_x (main_plot args_2021)) 199 = Some 25000)
    by (vm_compute; reflexivity).
  assert (Hnz : ~ 25000 == 0) by (intro E; discriminate E).
  split; [exact Hx |].
  exact (proj2 (plot_func_ordinates args_2021
                  (gross_min args_2021, gross_max args_2021) 199 25000 Hx) Hnz).
Defined.

(** * Further properties of the sampling *)

Lemma Qpos_nonzero (q : Q) : 0 < q -> ~ q == 0.
Proof. intros H E. rewrite E in H. discriminate H. Qed.

Section LinspaceRange.

Variables (start stop : Q) (num : nat).
Hypothesis two_samples : (2 <= num)%nat.

Lemma linspace_step_nonneg :
  start <= stop -> 0 <= linspace_step start stop num.
Proof.
  intro H. unfold linspace_step. apply Qle_shift_div_l.
  - change 0 with (inject_Z 0). rewrite <- Zlt_Qlt. lia.
  - lra.
Qed.

(** Every sample lies between the two ends. *)
Lemma linspace_between (i : nat) :
  start <= stop -> (i < num)%nat ->
  start <= nth i (linspace start stop num) 0 /\
  nth i (linspace start stop num) 0 <= stop.
Proof.
  intros Hle Hi.
  destruct (Nat.eq_dec i (num - 1)) as [E | Hne].
  - rewrite E, linspace_nth_last by exact two_samples. split; lra.
  - rewrite linspace_nth_inner by lia.
    pose proof (linspace_step_nonneg Hle) as Hs.
    pose proof (linspace_step_times_div start stop num two_samples) as Hd.
    assert (Hi0 : 0 <= inject_Z (Z.of_nat i))
      by (apply inject_Z_nonneg; lia).
    assert (Hi1 : inject_Z (Z.of_nat i) <= inject_Z (Z.of_nat (num - 1)))
      by (rewrite <- Zle_Qle; lia).
    assert (Hlo : 0 <= inject_Z (Z.of_nat i) * linspace_step start stop num)
      by (apply Qmult_le_0_compat; assumption).
    assert (Hhi : inject_Z (Z.of_nat i) * linspace_step start stop num
                  <= inject_Z (Z.of_nat (num - 1))
                     * linspace_step start stop num)
      by (apply Qmult_le_compat_r; assumption).
    rewrite Hd in Hhi.
    revert Hlo Hhi.
    generalize (inject_Z (Z.of_nat i) * linspace_step start stop num).
    intros k Hlo Hhi. split; lra.
Qed.

End LinspaceRange.

Lemma plot_x_nth_in (args : Args) (x : Z * Z) (g : Q) :
  In g (plot_x (plot_func args x)) ->
  exists i, (i < 200)%nat /\ nth i (plot_x (plot_func args x)) 0 = g.
Proof.
  intro Hin.
  destruct (In_nth _ _ 0 Hin) as (i & Hi & E).
  exists i. split; [| exact E].
  destruct (plot_func_lengths args x) as (Lx & _). cbv zeta in Lx.
  rewrite Lx in Hi. exact Hi.
Qed.

Lemma plot_x_between (args : Args) (x : Z * Z) (g : Q) :
  (fst x <= snd x)%Z ->
  In g (plot_x (plot_func args x)) ->
  inject_Z (fst x) <= g /\ g <= inject_Z (snd x).
Proof.
  intros Hle Hin.
  destruct (plot_x_nth_in args x g Hin) as (i & Hi & E).
  rewrite <- E, plot_func_x.
  apply linspace_between; [lia | rewrite <- Zle_Qle; exact Hle | exact Hi].
Qed.

(** X14.  With [0 < gross_min <= gross_max] no division by zero occurs:
    every ordinate of both series is finite. *)
Theorem plot_func_ordinates_finite (args : Args) (x : Z * Z) (v : option Q) :
  (0 < fst x)%Z -> (fst x <= snd x)%Z ->
  In v (y_company (plot_func args x))
  \/ In v (y_individual (plot_func args x)) ->
  v <> None.
Proof.
  intros Hpos Hle Hin.
  assert (Hnz : forall g, In g (plot_x (plot_func args x)) -> ~ g == 0).
  { intros g Hg.
    destruct (plot_x_between args x g Hle Hg) as [Hlo _].
    rewrite Zlt_Qlt in Hpos. apply Qpos_nonzero.
    apply Qlt_le_trans with (inject_Z (fst x)); assumption. }
  destruct Hin as [Hin | Hin];
    apply in_map_iff in Hin; destruct Hin as (g & E & Hg);
    rewrite np_burden_some in E by (apply Hnz; exact Hg);
    rewrite <- E; discriminate.
Qed.

Lemma plot_func_ordinates_finite_witness :
  (0 < gross_min args_2021)%Z /\
  (gross_min args_2021 <= gross_max args_2021)%Z /\
  nth 199 (y_company (main_plot args_2021)) None <> None.
Proof.
  assert (Hp : (0 < fst (gross_min args_2021, gross_max args_2021))%Z)
    by reflexivity.
  assert (Hl : (fst (gross_min args_2021, gross_max args_2021)
                <= snd (gross_min args_2021, gross_max args_2021))%Z)
    by (vm_compute; discriminate).
  split; [exact Hp | split; [exact Hl |]].
  apply (plot_func_ordinates_finite args_2021
           (gross_min args_2021, gross_max args_2021) _ Hp Hl).
  left. apply nth_In.
  destruct (plot_func_lengths args_2021
              (gross_min args_2021, gross_max args_2021)) as (_ & Lc & _).
  cbv zeta in Lc. unfold main_plot. rewrite Lc.
  apply (Nat.ltb_lt 199 200). reflexivity.
Defined.

Lemma np_burden_none (net gross : Q) :
  gross == 0 -> np_rsub 1 (np_div net gross) = None.
Proof.
  intro H. unfold np_div.
  apply Qeq_bool_iff in H. rewrite H. reflexivity.
Qed.

(** X15.  A sampled gross income of zero is not rejected: the division by
    zero leaves a non-finite ordinate in both series.  With
    [gross_min = 0] that is the first point of each series. *)
Theorem plot_func_zero_sample (args : Args) (x : Z * Z) (i : nat) (g : Q) :
  nth_error (plot_x (plot_func args x)) i = Some g ->
  g == 0 ->
  (nth_error (y_company (plot_func args x)) i = Some None /\
   nth_error (y_individual (plot_func args x)) i = Some None) /\
  (fst x = 0%Z ->
   nth_error (y_company (plot_func args x)) 0 = Some None /\
   nth_error (y_individual (plot_func args x)) 0 = Some None).
Proof.
  intros Hx Hz.
  assert (Hgen : forall j q,
            nth_error (plot_x (plot_func args x)) j = Some q -> q == 0 ->
            nth_error (y_company (plot_func args x)) j = Some None /\
            nth_error (y_individual (plot_func args x)) j = Some None).
  { intros j q Hj Hq.
    pose proof (map_nth_error
                  (fun gross =>
                     np_rsub 1 (np_div (get_net_company args gross) gross))
                  j _ Hj) as Hc.
    pose proof (map_nth_error
                  (fun gross =>
                     np_rsub 1 (np_div (get_net_individual args gross) gross))
                  j _ Hj) as Hi.
    cbv beta in Hc, Hi.
    rewrite np_burden_none in Hc, Hi by exact Hq.
    split; assumption. }
  split; [exact (Hgen i g Hx Hz) |].
  intro H0.
  assert (Hlen : (0 < length (plot_x (plot_func args x)))%nat)
    by (destruct (plot_func_lengths args x) as (Lx & _);
        cbv zeta in Lx; rewrite Lx; lia).
  apply (Hgen 0%nat (nth 0 (plot_x (plot_func args x)) 0)).
  - apply nth_error_nth'. exact Hlen.
  - rewrite plot_func_x, linspace_nth_first by lia.
    rewrite H0. reflexivity.
Qed.

Lemma plot_func_zero_sample_witness :
  let p := plot_func args_2021 (0, 199)%Z in
  nth_error (plot_x p) 199 = Some 199 /\
  nth_error (y_company p) 0 = Some None /\
  nth_error (y_individual p) 0 = Some None.
Proof.
  cbv zeta.
  assert (Hx : nth_error (plot_x (plot_func args_2021 (0, 199)%Z)) 0
               = Some (0 * ((199 - 0) / 199) + 0))
    by (vm_compute; reflexivity).
  assert (Hz : 0 * ((199 - 0) / 199) + 0 == 0) by reflexivity.
  split; [vm_compute; reflexivity |].
  exact (proj1 (plot_func_zero_sample args_2021 (0, 199)%Z 0 _ Hx Hz)).
Defined.

(** X18.  The horizontal axis runs from 0 to [gross_max].  For
    [gross_min <= gross_max] all sampled gross incomes of the script's chart
    lie within these limits exactly when [gross_min] is not negative. *)
Theorem main_plot_within_xlimits (args : Args) :
  (gross_min args <= gross_max args)%Z ->
  (forall g, In g (plot_x (main_plot args)) ->
             xmin (axis_limits args) <= g /\ g <= xmax (axis_limits args))
  <-> (0 <= gross_min args)%Z.
Proof.
  intro Hle. cbn [xmin xmax axis_limits]. unfold main_plot.
  split.
  - intro Hall.
    assert (Hin : In (nth 0 (plot_x (plot_func args
                                       (gross_min args, gross_max args))) 0)
                     (plot_x (plot_func args
                                (gross_min args, gross_max args)))).
    { apply nth_In.
      destruct (plot_func_lengths args (gross_min args, gross_max args))
        as (Lx & _).
      cbv zeta in Lx. rewrite Lx. lia. }
    destruct (Hall _ Hin) as [Hlo _].
    rewrite plot_func_x, linspace_nth_first in Hlo by lia.
    cbn [fst] in Hlo. change 0 with (inject_Z 0) in Hlo.
    rewrite <- Zle_Qle in Hlo. exact Hlo.
  - intros Hpos g Hin.
    destruct (plot_x_between args
                (gross_min args, gross_max args) g Hle Hin) as [Hlo Hhi].
    cbn [fst snd] in Hlo, Hhi.
    pose proof (inject_Z_nonneg _ Hpos) as H0.
    split; [apply Qle_trans with (inject_Z (gross_min args)) |]; assumption.
Qed.

Lemma main_plot_within_xlimits_witness :
  (gross_min args_2021 <= gross_max args_2021)%Z /\
  (0 <= gross_min args_2021)%Z /\
  forall g, In g (plot_x (main_plot args_2021)) ->
            xmin (axis_limits args_2021) <= g /\
            g <= xmax (axis_limits args_2021).
Proof.
  assert (H : (gross_min args_2021 <= gross_max args_2021)%Z)
    by (vm_compute; discriminate).
  assert (H0 : (0 <= gross_min args_2021)%Z) by (vm_compute; discriminate).
  split; [exact H | split; [exact H0 |]].
  exact (proj2 (main_plot_within_xlimits args_2021 H) H0).
Defined.

(** * The title *)

Lemma list_ascii_of_string_app (s t : string) :
  list_ascii_of_string (s ++ t)
  = list_ascii_of_string s ++ list_ascii_of_string t.
Proof.
  induction s as [| c s IH]; [reflexivity |].
  cbn. rewrite IH. reflexivity.
Qed.

Lemma list_ascii_of_string_inj (s t : string) :
  list_ascii_of_string s = list_ascii_of_string t -> s = t.
Proof.
  intro H.
  rewrite <- (string_of_list_ascii_of_string s),
          <- (string_of_list_ascii_of_string t), H.
  reflexivity.
Qed.

(** X19.  The title tells the chart's settings apart: two argument sets
    with the same title have the same [--year] text and the same
    [--citizen] flag, whatever the year text contains. *)
Theorem plot_title_injective (a b : Args) :
  plot_title a = plot_title b ->
  year a = year b /\ citizen a = citizen b.
Proof.
  unfold plot_title. intro H.
  apply (f_equal list_ascii_of_string) in H.
  rewrite !list_ascii_of_string_app in H.
  apply app_inv_head in H.
  set (ya := list_ascii_of_string (year a)) in *.
  set (yb := list_ascii_of_string (year b)) in *.
  assert (Hy : ya = yb -> year a = year b)
    by (apply list_ascii_of_string_inj).
  rewrite !app_assoc in H.
  do 2 apply app_inv_tail in H.
  rewrite <- !app_assoc in H.
  destruct (citizen a), (citizen b).
  - apply app_inv_tail in H. split; [exact (Hy H) | reflexivity].
  - exfalso. apply (f_equal (@rev ascii)) in H.
    rewrite !rev_app_distr in H. cbn in H. discriminate H.
  - exfalso. apply (f_equal (@rev ascii)) in H.
    rewrite !rev_app_distr in H. cbn in H. discriminate H.
  - apply app_inv_tail in H. split; [exact (Hy H) | reflexivity].
Qed.

Lemma plot_title_injective_witness :
  let b := mkArgs 700 4000 "2021" false 100 900 "chart.png" in
  plot_title args_2021 = plot_title b /\
  year args_2021 = year b /\ citizen args_2021 = citizen b.
Proof.
  cbv zeta.
  assert (H : plot_title args_2021
              = plot_title (mkArgs 700 4000 "2021" false 100 900 "chart.png"))
    by reflexivity.
  split; [exact H |].
  exact (plot_title_injective args_2021
           (mkArgs 700 4000 "2021" false 100 900 "chart.png") H).
Defined.
